(** * update_readme: splicing the project README

    A shallow embedding of [update_readme.py].  The script reads
    [README.md], looks up three section headings with [str.index], cuts the
    text at the positions found and writes back the pieces joined around two
    freshly authored sections.

    Python strings are sequences of Unicode code points; they are modelled
    as lists of code points ([N]).  File access and console output are
    modelled by a small state-and-exception monad over an explicit [world]. *)

From Stdlib Require Import String Ascii NArith Arith Bool Lia List.
Import ListNotations.

Set Implicit Arguments.

(** ** Python strings *)

Definition char : Type := N.
Definition str : Type := list char.

(** A string literal of the source. *)
Definition lit (s : string) : str :=
  map N_of_ascii (list_ascii_of_string s).
Arguments lit s%_string.

(** The literal ["\n"]. *)
Definition nl : str := [10%N].

(** A triple-quoted literal whose every line, the last one included, is
    followed by a line break. *)
Definition unlines (ls : list string) : str :=
  concat (map (fun l => lit l ++ nl) ls).

(** [s.startswith(sub)]. *)
Fixpoint startswith (s sub : str) : bool :=
  match sub, s with
  | [], _ => true
  | _ :: _, [] => false
  | c :: sub', d :: s' => N.eqb c d && startswith s' sub'
  end.

(** [s.find(sub)]: the lowest index at which [sub] occurs in [s]. *)
Fixpoint find (s sub : str) : option nat :=
  if startswith s sub then Some 0
  else match s with
       | [] => None
       | _ :: s' => option_map S (find s' sub)
       end.

(** Slices with non-negative bounds: [s[:i]], [s[i:j]] and [s[i:]].  Bounds
    past the end are clamped and [s[i:j]] is empty when [j <= i], as in
    Python. *)
Definition slice_to (i : nat) (s : str) : str := firstn i s.
Definition slice (i j : nat) (s : str) : str := firstn (j - i) (skipn i s).
Definition slice_from (i : nat) (s : str) : str := skipn i s.

(** ["".join(parts)]. *)
Definition join_empty (parts : list str) : str := concat parts.

(** ** Exceptions, files and the console *)

Inductive exn : Type :=
| FileNotFoundError
| PermissionError
| ValueError.

(** What an [except] clause catches.  [IOError] is an alias of [OSError],
    of which [FileNotFoundError] and [PermissionError] are subclasses. *)
Definition is_FileNotFoundError (e : exn) : bool :=
  match e with FileNotFoundError => true | _ => false end.
Definition is_ValueError (e : exn) : bool :=
  match e with ValueError => true | _ => false end.
Definition is_IOError (e : exn) : bool :=
  match e with FileNotFoundError | PermissionError => true | ValueError => false end.

Inductive res (A : Type) : Type :=
| Ok (a : A)
| Raise (e : exn).
Arguments Ok {A} a.
Arguments Raise {A} e.

(** [README.md] as the operating system holds it: its decoded text and
    whether this process may open it for reading and for writing. *)
Record file : Type := File {
  content : str;
  readable : bool;
  writable : bool
}.

(** The world the script acts on: [README.md] ([None] when there is no such
    file) and the lines printed so far. *)
Record world : Type := World {
  readme : option file;
  stdout : list str
}.

Definition M (A : Type) : Type := world -> world * res A.

Definition ret {A} (a : A) : M A := fun w => (w, Ok a).

Definition bind {A B} (m : M A) (k : A -> M B) : M B :=
  fun w => match m w with
           | (w', Ok a) => k a w'
           | (w', Raise e) => (w', Raise e)
           end.

Notation "x <- m ;; k" := (bind m (fun x => k))
  (at level 61, m at next level, right associativity).
Notation "m ;;; k" := (bind m (fun _ => k))
  (at level 61, right associativity).

(** [try: body  except E: handler]. *)
Definition try_except {A} (body : M A) (catches : exn -> bool) (handler : M A) : M A :=
  fun w => match body w with
           | (w', Ok a) => (w', Ok a)
           | (w', Raise e) => if catches e then handler w' else (w', Raise e)
           end.

Definition lift {A} (r : res A) : M A := fun w => (w, r).

(** [s.index(sub)]: as [find], but raises [ValueError] when there is no
    occurrence. *)
Definition index (s sub : str) : res nat :=
  match find s sub with
  | Some i => Ok i
  | None => Raise ValueError
  end.

(** [with open("README.md", "r", encoding="utf-8") as f: f.read()], for a
    [README.md] that is absent or a regular file whose bytes are UTF-8 text:
    [content] is the text [f.read()] returns.  A directory of that name and
    bytes that do not decode are outside this model. *)
Definition read_README : M str :=
  fun w => match readme w with
           | None => (w, Raise FileNotFoundError)
           | Some f => if readable f then (w, Ok (content f))
                       else (w, Raise PermissionError)
           end.

(** [with open("README.md", "w", encoding="utf-8") as f: f.write(s)].
    Opening for writing creates the file when it is absent.  The one failure
    modelled is a file that may not be opened for writing, which is left as
    it was; a write that fails after the file has been opened, and so
    truncated, is outside this model. *)
Definition write_README (s : str) : M unit :=
  fun w => match readme w with
           | None => (World (Some (File s true true)) (stdout w), Ok tt)
           | Some f =>
               if writable f
               then (World (Some (File s (readable f) (writable f))) (stdout w), Ok tt)
               else (w, Raise PermissionError)
           end.

Definition print (line : str) : M unit :=
  fun w => (World (readme w) (stdout w ++ [line]), Ok tt).

(** ** The script *)

Definition new_dir_structure_section : str :=
  unlines
    [ "## Directory Structure";
      "";
      "The project is organized as follows:";
      "";
      "- \`CMakeLists.txt\`: The main CMake file to configure and build the project.";
      "- \`include/\`: Contains the header files for the data structures (\`skiplist.h\`, \`trie.h\`, \`policy_radix.h\`). Since these are header-only libraries, you primarily interact with these files.";
      "- \`examples/\`: Contains example source files (\`example.cpp\`, \`use_policy.cpp\`, \`use_skip.cpp\`) demonstrating how to use the data structures.";
      "- \`tests/\`: Contains test source files and related data.";
      "  - \`tests/CMakeLists.txt\`: CMake file specifically for building and running tests using Google Test.";
      "  - \`tests/trie_test.txt\`: Example test data for the Trie.";
      "- \`.gitignore\`: Specifies intentionally untracked files that Git should ignore." ]%string.

Definition new_compile_section : str :=
  unlines
    [ "## How to Compile & Run";
      "";
      "This project uses CMake to manage the build process. The data structures themselves are header-only and located in the \`include/\` directory. Examples and tests are provided to demonstrate usage and verify functionality.";
      "";
      "### Prerequisites";
      "- A C++17 compliant compiler (e.g., GCC, Clang, MSVC)";
      "- CMake (version 3.10 or higher recommended)";
      "";
      "### Building the Project (Examples and Tests)";
      "";
      "1.  **Clone the repository:**";
      "    \`\`\`bash";
      "    git clone <repository_url>";
      "    cd <repository_directory>";
      "    \`\`\`";
      "";
      "2.  **Configure with CMake:**";
      "    It's recommended to build in a separate directory (e.g., \`build/\`):";
      "    \`\`\`bash";
      "    mkdir build";
      "    cd build";
      "    cmake ..";
      "    \`\`\`";
      "    This will configure the project and generate build files for your environment (e.g., Makefiles on Linux/macOS, Visual Studio solution on Windows).";
      "";
      "3.  **Compile:**";
      "    \`\`\`bash";
      "    cmake --build .";
      "    \`\`\`";
      "    Or, if using Makefiles (after \`cmake ..\`):";
      "    \`\`\`bash";
      "    make";
      "    \`\`\`";
      "    This will compile the example executables (e.g., \`trie_example\`, \`policy_example\`, \`skip_example\`) and the test runner (\`run_tests\`). The executables will typically be found in the \`build/\` directory.";
      "";
      "### Running Examples";
      "";
      "After successful compilation, you can run the examples from the build directory:";
      "\`\`\`bash";
      "./trie_example";
      "./policy_example";
      "./skip_example";
      "\`\`\`";
      "*(Note: On Windows, they would be \`.exe\` files, e.g., \`./trie_example.exe\`)*";
      "";
      "### Running Tests";
      "";
      "The tests are compiled into an executable named \`run_tests\`. You can run it from the build directory:";
      "\`\`\`bash";
      "./run_tests";
      "\`\`\`";
      "Or, using CTest (which is configured by CMake):";
      "\`\`\`bash";
      "ctest";
      "\`\`\`";
      "CTest will provide a summary of test results." ]%string.

Definition features_overview_marker : str := lit "## Features Overview".
Definition old_compile_marker : str := lit "## How to Compile & Run Examples".
Definition skip_list_marker : str := lit "## Skip List (`skiplist.h`)".

(** The three lookups of the second [try] block. *)
Definition find_split_points (current_readme_content : str) : res (nat * nat * nat) :=
  match index current_readme_content features_overview_marker with
  | Raise e => Raise e
  | Ok intro_end_index =>
    match index current_readme_content old_compile_marker with
    | Raise e => Raise e
    | Ok old_compile_start_index =>
      match index current_readme_content skip_list_marker with
      | Raise e => Raise e
      | Ok skip_list_start_index =>
          let features_overview_end_index := old_compile_start_index in
          Ok (intro_end_index, features_overview_end_index, skip_list_start_index)
      end
    end
  end.

Definition intro_content (doc : str) (intro_end_index : nat) : str :=
  slice_to intro_end_index doc.
Definition features_content (doc : str) (intro_end_index features_overview_end_index : nat) : str :=
  slice intro_end_index features_overview_end_index doc.
Definition rest_of_readme (doc : str) (skip_list_start_index : nat) : str :=
  slice_from skip_list_start_index doc.

(** The parts of the new README, joined. *)
Definition final_readme_content (doc : str) (a b c : nat) : str :=
  join_empty
    [ intro_content doc a;
      new_dir_structure_section;
      nl;
      features_content doc a b;
      new_compile_section;
      nl;
      rest_of_readme doc c ]%string.

Definition update_readme : M unit :=
  r <- try_except
         (current_readme_content <- read_README ;; ret (Some current_readme_content))
         is_FileNotFoundError
         (print (lit "Error: README.md not found.") ;;; ret None) ;;
  match r with
  | None => ret tt
  | Some current_readme_content =>
    r <- try_except
           (p <- lift (find_split_points current_readme_content) ;; ret (Some p))
           is_ValueError
           (print (lit "Error: One of the section markers not found in README.md. Cannot proceed.") ;;;
            ret None) ;;
    match r with
    | None => ret tt
    | Some (intro_end_index, features_overview_end_index, skip_list_start_index) =>
        try_except
          (write_README
             (final_readme_content current_readme_content
                intro_end_index features_overview_end_index skip_list_start_index) ;;;
           print (lit "README.md updated successfully."))
          is_IOError
          (print (lit "Error: Could not write updated README.md."))
    end
  end.

(** ** Occurrences of a substring *)

(** [sub] occurs in [s] at index [i]. *)
Definition occurs_at (sub s : str) (i : nat) : Prop :=
  exists pre post, s = pre ++ sub ++ post /\ length pre = i.

Definition occurs (sub s : str) : Prop :=
  exists pre post, s = pre ++ sub ++ post.

(** [i] is the index of the first occurrence of [sub] in [s]. *)
Definition first_occurrence (sub s : str) (i : nat) : Prop :=
  occurs_at sub s i /\ forall j, occurs_at sub s j -> i <= j.

(** Some proper, non-empty tail of [sub] starts [y]: an occurrence of [sub]
    could straddle the seam of [x ++ y]. *)
Definition straddles (sub y : str) : bool :=
  existsb (fun k => startswith y (skipn k sub)) (seq 1 (length sub - 1)).

(** ** What a run reports *)

Inductive report : Type :=
| Updated
| NotFound
| MarkerNotFound
| WriteError.

Definition message (r : report) : str :=
  match r with
  | Updated => lit "README.md updated successfully."
  | NotFound => lit "Error: README.md not found."
  | MarkerNotFound =>
      lit "Error: One of the section markers not found in README.md. Cannot proceed."
  | WriteError => lit "Error: Could not write updated README.md."
  end.

(** The run returned normally, printed exactly the message of [r] and left
    [README.md] holding [f]. *)
Definition finishes (w : world) (r : report) (f : option file) : Prop :=
  update_readme w = (World f (stdout w ++ [message r]), Ok tt).

(** [README.md] exists with text [doc] and may be read and written. *)
Definition holding (doc : str) (out : list str) : world :=
  World (Some (File doc true true)) out.

(** [sub in s]. *)
Definition contains (s sub : str) : bool :=
  match find s sub with
  | Some _ => true
  | None => false
  end.

Definition is_prefix (p s : str) : Prop := exists t, s = p ++ t.
Definition is_suffix (q s : str) : Prop := exists t, s = t ++ q.

(** ** Sample documents *)

(** A README with the three headings in the expected order. *)
Definition scenario_document : str :=
  lit "A" ++ nl ++
  lit "## Features Overview" ++ nl ++
  lit "F" ++ nl ++
  lit "## How to Compile & Run Examples" ++ nl ++
  lit "C" ++ nl ++
  lit "## Skip List (`skiplist.h`)" ++ nl ++
  lit "S" ++ nl.

Definition scenario_expected : str :=
  (lit "A" ++ nl) ++
  new_dir_structure_section ++
  nl ++
  (lit "## Features Overview" ++ nl ++ lit "F" ++ nl) ++
  new_compile_section ++
  nl ++
  (lit "## Skip List (`skiplist.h`)" ++ nl ++ lit "S" ++ nl).

(** A README in which the skip-list heading comes before the old compile
    heading. *)
Definition scrambled_document : str :=
  lit "## Features Overview" ++ nl ++
  lit "## Skip List (`skiplist.h`)" ++ nl ++
  lit "## How to Compile & Run Examples" ++ nl.

(** A README without the old compile heading. *)
Definition document_without_compile_heading : str :=
  lit "## Features Overview" ++ nl ++
  lit "## Skip List (`skiplist.h`)" ++ nl.

(** A README that has the old compile heading a second time, below the
    skip-list heading. *)
Definition document_with_second_compile_heading : str :=
  lit "## Features Overview" ++ nl ++
  lit "## How to Compile & Run Examples" ++ nl ++
  lit "## Skip List (`skiplist.h`)" ++ nl ++
  lit "## How to Compile & Run Examples" ++ nl.

(** A README whose old compile heading comes first. *)
Definition document_with_compile_heading_first : str :=
  lit "## How to Compile & Run Examples" ++ nl ++
  lit "## Features Overview" ++ nl ++
  lit "## Skip List (`skiplist.h`)" ++ nl.

(** ** Run as a script *)


(** ** Comparing texts and files *)

(** [x] and [y] differ at an index both have. *)
Fixpoint clash (x y : str) : bool :=
  match x, y with
  | c :: x', d :: y' => negb (N.eqb c d) || clash x' y'
  | _, _ => false
  end.

(** No tail of [x], [x] itself included, can be laid over the start of
    [y]: an occurrence of [y] cannot begin inside an occurrence of [x]. *)
Definition never_overlaps (x y : str) : bool :=
  forallb (fun k => clash (skipn k x) y) (seq 0 (length x)).

(** The file is there before and after or absent before and after, with the
    same permissions. *)
Definition same_file_status (before after : option file) : Prop :=
  match before, after with
  | None, None => True
  | Some f, Some f' => readable f' = readable f /\ writable f' = writable f
  | _, _ => False
  end.

(** * Facts about [startswith], [find] and slices *)

Lemma startswith_nil (s : str) : startswith s [] = true.
Proof. destruct s; reflexivity. Qed.

Lemma startswith_app (sub post : str) : startswith (sub ++ post) sub = true.
Proof.
  induction sub as [|c sub IH]; simpl.
  - apply startswith_nil.
  - now rewrite N.eqb_refl.
Qed.

Lemma startswith_true (s sub : str) :
  startswith s sub = true -> exists post, s = sub ++ post.
Proof.
  revert s; induction sub as [|c sub IH]; intros s H.
  - now exists s.
  - destruct s as [|d s]; simpl in H; [discriminate|].
    apply andb_true_iff in H as [Hc Hs].
    apply N.eqb_eq in Hc; subst d.
    destruct (IH _ Hs) as [post ->].
    now exists post.
Qed.

Lemma startswith_iff (s sub : str) :
  startswith s sub = true <-> exists post, s = sub ++ post.
Proof.
  split; [apply startswith_true|].
  intros [post ->]; apply startswith_app.
Qed.

Lemma find_eq (s sub : str) :
  find s sub =
  if startswith s sub then Some 0
  else match s with
       | [] => None
       | _ :: s' => option_map S (find s' sub)
       end.
Proof. destruct s; reflexivity. Qed.

Lemma occurs_at_0 (sub s : str) :
  occurs_at sub s 0 <-> startswith s sub = true.
Proof.
  rewrite startswith_iff; split.
  - intros (pre & post & -> & Hl).
    apply length_zero_iff_nil in Hl; subst pre; now exists post.
  - intros [post ->]; now exists [], post.
Qed.

Lemma occurs_at_S (sub : str) (x : char) (s : str) (i : nat) :
  occurs_at sub (x :: s) (S i) <-> occurs_at sub s i.
Proof.
  split.
  - intros (pre & post & E & Hl).
    destruct pre as [|y pre]; [discriminate|].
    injection E as _ E; injection Hl as Hl.
    now exists pre, post.
  - intros (pre & post & -> & Hl).
    exists (x :: pre), post; simpl; now rewrite Hl.
Qed.

Lemma occurs_at_nil (sub : str) (i : nat) :
  occurs_at sub [] i -> i = 0.
Proof.
  intros (pre & post & E & Hl).
  symmetry in E; apply app_eq_nil in E as [-> _]; now subst i.
Qed.

Lemma occurs_iff (sub s : str) : occurs sub s <-> exists i, occurs_at sub s i.
Proof.
  split.
  - intros (pre & post & E); exists (length pre), pre, post; auto.
  - intros (i & pre & post & E & _); now exists pre, post.
Qed.

(** [find] returns an index at which [sub] occurs ... *)
Lemma find_occurs_at (s sub : str) (i : nat) :
  find s sub = Some i -> occurs_at sub s i.
Proof.
  revert i; induction s as [|x s IH]; intros i; rewrite find_eq;
    destruct (startswith _ sub) eqn:Hs.
  - intros [= <-]; now apply occurs_at_0.
  - discriminate.
  - intros [= <-]; now apply occurs_at_0.
  - destruct (find s sub) as [k|]; simpl; [|discriminate].
    intros [= <-]; apply occurs_at_S; auto.
Qed.

(** ... and no occurrence lies before it. *)
Lemma find_least (s sub : str) (i j : nat) :
  find s sub = Some i -> occurs_at sub s j -> i <= j.
Proof.
  revert i j; induction s as [|x s IH]; intros i j; rewrite find_eq;
    destruct (startswith _ sub) eqn:Hs.
  - intros [= <-] _; lia.
  - discriminate.
  - intros [= <-] _; lia.
  - destruct (find s sub) as [k|]; simpl; [|discriminate].
    intros [= <-] Hj.
    destruct j as [|j].
    + apply occurs_at_0 in Hj; congruence.
    + apply occurs_at_S in Hj. specialize (IH k j eq_refl Hj); lia.
Qed.

Lemma find_None_not_occurs_at (s sub : str) (j : nat) :
  find s sub = None -> ~ occurs_at sub s j.
Proof.
  revert j; induction s as [|x s IH]; intros j; rewrite find_eq;
    destruct (startswith _ sub) eqn:Hs; try discriminate.
  - intros _ Hj. pose proof (occurs_at_nil Hj); subst j.
    apply occurs_at_0 in Hj; congruence.
  - destruct (find s sub) as [k|]; simpl; [discriminate|].
    intros _ Hj. destruct j as [|j].
    + apply occurs_at_0 in Hj; congruence.
    + apply occurs_at_S in Hj. now apply (IH j).
Qed.

Lemma find_None_iff (s sub : str) : find s sub = None <-> ~ occurs sub s.
Proof.
  split.
  - intros H Ho. apply occurs_iff in Ho as [j Hj].
    now apply (find_None_not_occurs_at H Hj).
  - intros H. destruct (find s sub) as [i|] eqn:E; [|reflexivity].
    exfalso; apply H, occurs_iff; exists i; now apply find_occurs_at.
Qed.

Lemma find_first_occurrence (s sub : str) (i : nat) :
  find s sub = Some i <-> first_occurrence sub s i.
Proof.
  split.
  - intros H; split; [now apply find_occurs_at|].
    intros j; now apply find_least.
  - intros [Hi Hmin].
    destruct (find s sub) as [k|] eqn:E.
    + f_equal. pose proof (find_least E Hi).
      pose proof (Hmin k (find_occurs_at _ _ E)). lia.
    + exfalso; now apply (find_None_not_occurs_at E Hi).
Qed.

Lemma occurs_at_cut (sub s : str) (i : nat) :
  occurs_at sub s i ->
  exists post, firstn i s ++ sub ++ post = s /\ skipn i s = sub ++ post /\ i <= length s.
Proof.
  intros (pre & post & -> & <-). exists post.
  rewrite firstn_app, Nat.sub_diag, firstn_all, app_nil_r.
  rewrite skipn_app, Nat.sub_diag, skipn_all, length_app. simpl.
  repeat split; lia.
Qed.

(** [s[:a] + s[a:b] = s[:b]] when [a <= b]. *)
Lemma slice_to_slice (s : str) (a b : nat) :
  a <= b -> slice_to a s ++ slice a b s = slice_to b s.
Proof.
  unfold slice_to, slice. revert s b.
  induction a as [|a IH]; intros s b Hab.
  - now rewrite Nat.sub_0_r.
  - destruct b as [|b]; [lia|].
    destruct s as [|x s]; simpl.
    + now rewrite firstn_nil.
    + f_equal. apply IH. lia.
Qed.

(** [s[:b] + s[b:c] + s[c:] = s] when [b <= c]. *)
Lemma slices_cover (s : str) (b c : nat) :
  b <= c -> slice_to b s ++ slice b c s ++ slice_from c s = s.
Proof.
  intros Hbc. rewrite app_assoc, slice_to_slice by assumption.
  apply firstn_skipn.
Qed.

Lemma occurs_extend (sub s pre post : str) :
  occurs sub s -> occurs sub (pre ++ s ++ post).
Proof.
  intros (p & q & ->). exists (pre ++ p), (q ++ post).
  now rewrite <- !app_assoc.
Qed.

Lemma occurs_nil_inv (sub : str) : occurs sub [] -> sub = [].
Proof.
  intros (p & q & E). symmetry in E.
  apply app_eq_nil in E as [_ E]. now apply app_eq_nil in E as [E _].
Qed.

(** Before its first occurrence a non-empty [sub] does not occur. *)
Lemma not_occurs_before_find (s sub : str) (i : nat) :
  find s sub = Some i -> sub <> [] -> ~ occurs sub (slice_to i s).
Proof.
  intros Hf Hne (p & q & E). unfold slice_to in E.
  assert (Hj : occurs_at sub s (length p)).
  { exists p, (q ++ skipn i s); split; [|reflexivity].
    rewrite <- (firstn_skipn i s) at 1. rewrite E.
    now rewrite <- !app_assoc. }
  pose proof (find_least Hf Hj) as Hle.
  pose proof (firstn_le_length i s) as Hlen.
  rewrite E, !length_app in Hlen.
  destruct sub; [congruence|simpl in Hlen; lia].
Qed.

(** An occurrence in [x ++ y] lies in [x], lies in [y], or straddles the
    seam. *)
Lemma occurs_app_cases (sub x y : str) :
  occurs sub (x ++ y) ->
  occurs sub x \/ occurs sub y \/ straddles sub y = true.
Proof.
  intros (p & q & E).
  apply app_eq_app in E as [l [[-> E]|[-> E]]].
  - (* the occurrence starts inside [x] *)
    symmetry in E. apply app_eq_app in E as [m [[-> E]|[-> E]]].
    + left. now exists p, m.
    + destruct m as [|c m].
      * left. exists p, []. now rewrite !app_nil_r.
      * destruct l as [|d l].
        -- right; left. exists [], q. simpl in *. now rewrite E.
        -- right; right. unfold straddles.
           apply existsb_exists. exists (length (d :: l)). split.
           ++ apply in_seq. rewrite length_app. simpl. lia.
           ++ rewrite skipn_app, Nat.sub_diag, skipn_all. simpl skipn at 1.
              simpl app at 1. rewrite E. apply startswith_app.
  - right; left. now exists l, q.
Qed.

(** A line break that [sub] does not contain separates its occurrences. *)
Lemma occurs_across_nl (sub x y : str) :
  ~ In 10%N sub -> sub <> [] ->
  occurs sub (x ++ nl ++ y) -> occurs sub x \/ occurs sub y.
Proof.
  intros Hnl Hne (p & q & E).
  apply app_eq_app in E as [l [[-> E]|[-> E]]].
  - symmetry in E. apply app_eq_app in E as [m [[-> E]|[-> E]]].
    + left. now exists p, m.
    + destruct m as [|c m].
      * left. exists p, []. now rewrite !app_nil_r.
      * exfalso. injection E as <- _. apply Hnl.
        apply in_or_app; right; now left.
  - destruct l as [|c l].
    + exfalso. destruct sub as [|d sub]; [congruence|].
      injection E as <- _. apply Hnl; now left.
    + injection E as _ E. right. now exists l, q.
Qed.

(** * Facts about one run *)

Lemma final_readme_content_eq (doc : str) (a b c : nat) :
  final_readme_content doc a b c =
  slice_to a doc ++ new_dir_structure_section ++ nl ++
  slice a b doc ++ new_compile_section ++ nl ++ slice_from c doc.
Proof.
  unfold final_readme_content, join_empty, intro_content, features_content,
    rest_of_readme.
  cbn [concat]. now rewrite app_nil_r.
Qed.

Lemma find_split_points_Ok (doc : str) (a b c : nat) :
  find_split_points doc = Ok (a, b, c) <->
  find doc features_overview_marker = Some a /\
  find doc old_compile_marker = Some b /\
  find doc skip_list_marker = Some c.
Proof.
  unfold find_split_points, index.
  destruct (find doc features_overview_marker) as [a'|];
    destruct (find doc old_compile_marker) as [b'|];
    destruct (find doc skip_list_marker) as [c'|];
    split; try discriminate; try (intros (? & ? & ?); discriminate).
  - now intros [= -> -> ->].
  - now intros ([= ->] & [= ->] & [= ->]).
Qed.

Lemma find_split_points_Raise (doc : str) :
  find doc features_overview_marker = None \/
  find doc old_compile_marker = None \/
  find doc skip_list_marker = None ->
  find_split_points doc = Raise ValueError.
Proof.
  unfold find_split_points, index.
  destruct (find doc features_overview_marker) as [a'|];
    destruct (find doc old_compile_marker) as [b'|];
    destruct (find doc skip_list_marker) as [c'|];
    intros [H|[H|H]]; try discriminate; reflexivity.
Qed.

Lemma run_absent (out : list str) :
  update_readme (World None out) = (World None (out ++ [message NotFound]), Ok tt).
Proof. reflexivity. Qed.

Lemma run_unreadable (doc : str) (wr : bool) (out : list str) :
  update_readme (World (Some (File doc false wr)) out) =
  (World (Some (File doc false wr)) out, Raise PermissionError).
Proof. reflexivity. Qed.

Lemma run_missing_marker (w : world) (f : file) :
  readme w = Some f -> readable f = true ->
  find_split_points (content f) = Raise ValueError ->
  update_readme w = (World (Some f) (stdout w ++ [message MarkerNotFound]), Ok tt).
Proof.
  intros Hf Hr Hp.
  unfold update_readme, bind, try_except, read_README, lift, ret, print.
  rewrite Hf, Hr, Hp. cbn [is_ValueError readme stdout message].
  now rewrite Hf.
Qed.

Lemma run_found (w : world) (f : file) (a b c : nat) :
  readme w = Some f -> readable f = true ->
  find_split_points (content f) = Ok (a, b, c) ->
  update_readme w =
  if writable f
  then (World (Some (File (final_readme_content (content f) a b c) true true))
          (stdout w ++ [message Updated]), Ok tt)
  else (World (Some f) (stdout w ++ [message WriteError]), Ok tt).
Proof.
  intros Hf Hr Hp.
  unfold update_readme, bind, try_except, read_README, write_README, lift, ret, print.
  rewrite Hf, Hr, Hp. cbn [readme stdout]. rewrite Hf, Hr.
  destruct (writable f); cbn [is_IOError readme stdout message]; [reflexivity|].
  now rewrite Hf.
Qed.

Lemma run_holding (doc : str) (a b c : nat) (out : list str) :
  find doc features_overview_marker = Some a ->
  find doc old_compile_marker = Some b ->
  find doc skip_list_marker = Some c ->
  finishes (holding doc out) Updated
    (Some (File (final_readme_content doc a b c) true true)).
Proof.
  intros Ha Hb Hc. unfold finishes, holding.
  apply (@run_found (World (Some (File doc true true)) out) (File doc true true) a b c);
    [reflexivity | reflexivity |].
  now apply find_split_points_Ok.
Qed.

(** The new text always differs from the old one: where the old text has
    the features heading, the new one has the directory heading. *)
Lemma final_readme_content_differs (doc : str) (a b c : nat) :
  find doc features_overview_marker = Some a ->
  final_readme_content doc a b c <> doc.
Proof.
  intros Ha E. rewrite final_readme_content_eq in E. unfold slice_to in E.
  apply find_occurs_at, occurs_at_cut in Ha as (post & E1 & _ & _).
  pose proof (eq_trans E (eq_sym E1)) as E2.
  apply app_inv_head in E2.
  assert (exists t, new_dir_structure_section = 35%N :: 35%N :: 32%N :: 68%N :: t)
    as [t1 H1]
    by (exists (skipn 4 new_dir_structure_section); vm_compute; reflexivity).
  assert (exists t, features_overview_marker = 35%N :: 35%N :: 32%N :: 70%N :: t)
    as [t2 H2]
    by (exists (skipn 4 features_overview_marker); vm_compute; reflexivity).
  rewrite H1, H2 in E2. cbn [app] in E2. discriminate E2.
Qed.

(** The features span starts with its heading when the old compile heading
    begins after the heading's end. *)
Lemma features_content_heading (doc : str) (a b : nat) :
  find doc features_overview_marker = Some a ->
  a + length features_overview_marker <= b ->
  exists t, features_content doc a b = features_overview_marker ++ t.
Proof.
  intros Ha Hb.
  apply find_occurs_at, occurs_at_cut in Ha as (post & _ & E & _).
  unfold features_content, slice. rewrite E.
  rewrite firstn_app, firstn_all2 by lia. eauto.
Qed.

(** * The old compile heading after a run *)

Lemma contains_true_iff (s sub : str) : contains s sub = true <-> occurs sub s.
Proof.
  unfold contains. destruct (find s sub) as [i|] eqn:E.
  - split; [intros _|reflexivity].
    apply occurs_iff; exists i; now apply find_occurs_at.
  - split; [discriminate|]. intros H. now apply find_None_iff in E.
Qed.

Lemma unlines_cons (l : string) (ls : list string) :
  unlines (l :: ls) = lit l ++ nl ++ unlines ls.
Proof. unfold unlines. cbn [map concat]. now rewrite <- app_assoc. Qed.

(** An occurrence of a one-line [sub] in lines followed by [y] is inside one
    of the lines or inside [y]. *)
Lemma occurs_in_lines (sub y : str) (ls : list string) :
  ~ In 10%N sub -> sub <> [] ->
  occurs sub (unlines ls ++ y) ->
  existsb (fun l => contains (lit l) sub) ls = true \/ occurs sub y.
Proof.
  intros Hnl Hne. induction ls as [|l ls IH]; intros H.
  - now right.
  - rewrite unlines_cons, <- !app_assoc in H.
    apply occurs_across_nl in H as [H|H]; try assumption.
    + left. cbn [existsb]. apply orb_true_iff; left.
      now apply contains_true_iff.
    + destruct (IH H) as [H'|H']; [left|now right].
      cbn [existsb]. apply orb_true_iff; now right.
Qed.

(** The same for a block of lines between [x] and [y]: only the first line
    of the block is joined to [x]. *)
Lemma occurs_around_block (sub x y : str) (l : string) (ls : list string) :
  ~ In 10%N sub -> sub <> [] ->
  occurs sub (x ++ unlines (l :: ls) ++ y) ->
  occurs sub (x ++ lit l)
  \/ existsb (fun l' => contains (lit l') sub) ls = true
  \/ occurs sub y.
Proof.
  intros Hnl Hne H.
  rewrite unlines_cons, <- !app_assoc in H.
  rewrite (app_assoc x (lit l)) in H.
  apply occurs_across_nl in H as [H|H]; try assumption.
  - now left.
  - right. now apply occurs_in_lines.
Qed.

Lemma old_compile_marker_one_line : ~ In 10%N old_compile_marker.
Proof.
  vm_compute. intros H.
  repeat (destruct H as [H|H]; [discriminate H|]). exact H.
Qed.

Lemma old_compile_marker_not_empty : old_compile_marker <> [].
Proof. vm_compute. discriminate. Qed.

(** A span of the text before the old compile heading joined to the first
    line of a new block has no old compile heading, for both new blocks. *)
Lemma no_old_compile_marker_at_seam (doc : str) (b : nat) (x : str) (l : string) :
  find doc old_compile_marker = Some b ->
  (exists pre post, slice_to b doc = pre ++ x ++ post) ->
  contains (lit l) old_compile_marker = false ->
  straddles old_compile_marker (lit l) = false ->
  ~ occurs old_compile_marker (x ++ lit l).
Proof.
  intros Hb (pre & post & Hx) Hin Hst H.
  apply occurs_app_cases in H as [H|[H|H]].
  - apply (@not_occurs_before_find doc old_compile_marker b Hb
             old_compile_marker_not_empty).
    rewrite Hx. now apply occurs_extend.
  - apply contains_true_iff in H. congruence.
  - congruence.
Qed.

(** After a run on a text with the features heading before the old compile
    heading and no old compile heading from the skip-list heading on, the
    new text has no old compile heading at all. *)
Lemma old_compile_marker_gone (doc : str) (a b c : nat) :
  find doc old_compile_marker = Some b ->
  a <= b ->
  find (rest_of_readme doc c) old_compile_marker = None ->
  find (final_readme_content doc a b c) old_compile_marker = None.
Proof.
  intros Hb Hab Htail. apply find_None_iff. intros H.
  pose proof old_compile_marker_one_line as Hnl.
  pose proof old_compile_marker_not_empty as Hne.
  assert (Hrest : forall y, occurs old_compile_marker (nl ++ y) ->
                            occurs old_compile_marker y).
  { intros y Hy. apply (@occurs_across_nl old_compile_marker [] y) in Hy;
      try assumption.
    destruct Hy as [Hy|Hy]; [|assumption].
    apply occurs_nil_inv in Hy. contradiction. }
  rewrite final_readme_content_eq in H.
  unfold new_dir_structure_section at 1 in H.
  apply occurs_around_block in H as [H|[H|H]]; try assumption.
  - revert H. apply (@no_old_compile_marker_at_seam doc b (slice_to a doc) _ Hb).
    + exists [], (slice a b doc). cbn [app]. symmetry. now apply slice_to_slice.
    + vm_compute; reflexivity.
    + vm_compute; reflexivity.
  - vm_compute in H. discriminate H.
  - apply Hrest in H.
    unfold new_compile_section at 1 in H.
    apply occurs_around_block in H as [H|[H|H]]; try assumption.
    + revert H. apply (@no_old_compile_marker_at_seam doc b (slice a b doc) _ Hb).
      * exists (slice_to a doc), []. rewrite app_nil_r. symmetry.
        now apply slice_to_slice.
      * vm_compute; reflexivity.
      * vm_compute; reflexivity.
    + vm_compute in H. discriminate H.
    + apply Hrest in H. now apply find_None_iff in Htail.
Qed.

(** * The claims *)

(** C1.  When all three headings are found, at first-occurrence indices [a],
    [b] and [c], a run on a readable and writable README replaces its text by
    [doc[:a] + new_dir_structure_section + "\n" + doc[a:b] +
    new_compile_section + "\n" + doc[c:]] and reports success; on the sample
    document this is the expected text of the scenario. *)
Theorem C1_reassembled_output (doc : str) (a b c : nat) (out : list str) :
  find doc features_overview_marker = Some a ->
  find doc old_compile_marker = Some b ->
  find doc skip_list_marker = Some c ->
  finishes (holding doc out) Updated
    (Some (File (slice_to a doc ++ new_dir_structure_section ++ nl ++
                 slice a b doc ++ new_compile_section ++ nl ++
                 slice_from c doc) true true))
  /\ finishes (holding scenario_document out) Updated
       (Some (File scenario_expected true true)).
Proof.
  intros Ha Hb Hc. split.
  - rewrite <- final_readme_content_eq. now apply run_holding.
  - replace scenario_expected with (final_readme_content scenario_document 2 25 60)
      by (vm_compute; reflexivity).
    apply run_holding; vm_compute; reflexivity.
Qed.

Lemma C1_reassembled_output_witness :
  find scenario_document features_overview_marker = Some 2 /\
  find scenario_document old_compile_marker = Some 25 /\
  find scenario_document skip_list_marker = Some 60 /\
  finishes (holding scenario_document []) Updated
    (Some (File (slice_to 2 scenario_document ++ new_dir_structure_section ++ nl ++
                 slice 2 25 scenario_document ++ new_compile_section ++ nl ++
                 slice_from 60 scenario_document) true true)).
Proof.
  assert (Ha : find scenario_document features_overview_marker = Some 2)
    by (vm_compute; reflexivity).
  assert (Hb : find scenario_document old_compile_marker = Some 25)
    by (vm_compute; reflexivity).
  assert (Hc : find scenario_document skip_list_marker = Some 60)
    by (vm_compute; reflexivity).
  exact (conj Ha (conj Hb (conj Hc
           (proj1 (@C1_reassembled_output scenario_document 2 25 60 [] Ha Hb Hc))))).
Defined.

(** C2.  When at least one of the three headings does not occur in a
    readable README, the run prints the one message of [MarkerNotFound],
    whichever heading is missing, and leaves the file exactly as it was. *)
Theorem C2_missing_marker_aborts (w : world) (f : file) :
  readme w = Some f -> readable f = true ->
  find (content f) features_overview_marker = None \/
  find (content f) old_compile_marker = None \/
  find (content f) skip_list_marker = None ->
  finishes w MarkerNotFound (Some f).
Proof.
  intros Hf Hr Hm. unfold finishes.
  apply run_missing_marker; auto using find_split_points_Raise.
Qed.

Lemma C2_missing_marker_aborts_witness :
  find document_without_compile_heading old_compile_marker = None /\
  finishes (holding document_without_compile_heading []) MarkerNotFound
    (Some (File document_without_compile_heading true true)).
Proof.
  split; [vm_compute; reflexivity|].
  apply (@C2_missing_marker_aborts (holding document_without_compile_heading [])
           (File document_without_compile_heading true true));
    [reflexivity | reflexivity | right; left; vm_compute; reflexivity].
Defined.

(** C3, as amended.  When all three headings occur but their first
    occurrences are not in the order [a <= b <= c], the run does not abort:
    it replaces the text by the pieces cut at the indices found, reports
    success, and the new text differs from the old one. *)
Theorem C3_out_of_order_is_rewritten (doc : str) (a b c : nat) (out : list str) :
  find doc features_overview_marker = Some a ->
  find doc old_compile_marker = Some b ->
  find doc skip_list_marker = Some c ->
  ~ (a <= b /\ b <= c) ->
  finishes (holding doc out) Updated
    (Some (File (final_readme_content doc a b c) true true))
  /\ final_readme_content doc a b c <> doc.
Proof.
  intros Ha Hb Hc _. split.
  - now apply run_holding.
  - now apply final_readme_content_differs.
Qed.

Lemma C3_out_of_order_is_rewritten_witness :
  ~ (0 <= 49 /\ 49 <= 21) /\
  finishes (holding scrambled_document []) Updated
    (Some (File (final_readme_content scrambled_document 0 49 21) true true))
  /\ final_readme_content scrambled_document 0 49 21 <> scrambled_document.
Proof.
  split; [lia|].
  apply (@C3_out_of_order_is_rewritten scrambled_document 0 49 21 []);
    try (vm_compute; reflexivity); lia.
Defined.

(** C3 as stated fails: the sample README with the skip-list heading before
    the old compile heading has all three headings, out of order, and the run
    overwrites it and reports success. *)
Lemma C3_counterexample :
  find_split_points scrambled_document = Ok (0, 49, 21) /\
  ~ (0 <= 49 /\ 49 <= 21) /\
  exists new_doc,
    update_readme (holding scrambled_document []) =
      (World (Some (File new_doc true true)) [message Updated], Ok tt)
    /\ new_doc <> scrambled_document.
Proof.
  split; [vm_compute; reflexivity|]. split; [lia|].
  exists (final_readme_content scrambled_document 0 49 21). split.
  - apply (@run_holding scrambled_document 0 49 21 []); vm_compute; reflexivity.
  - apply final_readme_content_differs. vm_compute; reflexivity.
Qed.

(** C4.  Once the three headings are found nothing compares the indices:
    whatever their order, the run goes on to cut the text at them and to
    write the joined pieces, reporting success.  The only other way out is a
    README that cannot be opened for writing, which is reported as a write
    error and left as it was. *)
Theorem C4_no_ordering_validation (w : world) (f : file) (a b c : nat) :
  readme w = Some f -> readable f = true ->
  find (content f) features_overview_marker = Some a ->
  find (content f) old_compile_marker = Some b ->
  find (content f) skip_list_marker = Some c ->
  (writable f = true ->
   finishes w Updated
     (Some (File (join_empty
                    [ slice_to a (content f); new_dir_structure_section; nl;
                      slice a b (content f); new_compile_section; nl;
                      slice_from c (content f) ]) true true)))
  /\ (writable f = false -> finishes w WriteError (Some f)).
Proof.
  intros Hf Hr Ha Hb Hc.
  assert (Hp : find_split_points (content f) = Ok (a, b, c))
    by now apply find_split_points_Ok.
  unfold finishes. rewrite (run_found w Hf Hr Hp).
  split; intros ->; reflexivity.
Qed.

Lemma C4_no_ordering_validation_witness :
  21 < 49 /\
  finishes (holding scrambled_document []) Updated
    (Some (File (join_empty
                   [ slice_to 0 scrambled_document; new_dir_structure_section; nl;
                     slice 0 49 scrambled_document; new_compile_section; nl;
                     slice_from 21 scrambled_document ]) true true)).
Proof.
  split; [lia|].
  refine (proj1 (@C4_no_ordering_validation (holding scrambled_document [])
                   (File scrambled_document true true) 0 49 21
                   eq_refl eq_refl _ _ _) eq_refl);
    vm_compute; reflexivity.
Defined.

(** C5.  With the headings in order, the three spans joined with empty
    blocks and empty separators are [doc[:b] + doc[c:]], and [doc] itself is
    [doc[:b] + doc[b:c] + doc[c:]]: what is left out is exactly the span from
    [b] up to [c]. *)
Theorem C5_partition_exact (doc : str) (a b c : nat) :
  find doc features_overview_marker = Some a ->
  find doc old_compile_marker = Some b ->
  find doc skip_list_marker = Some c ->
  a <= b -> b <= c ->
  join_empty
    [ intro_content doc a; []; []; features_content doc a b; []; [];
      rest_of_readme doc c ]
  = slice_to b doc ++ slice_from c doc
  /\ doc = slice_to b doc ++ slice b c doc ++ slice_from c doc.
Proof.
  intros _ _ _ Hab Hbc. split.
  - unfold join_empty, intro_content, features_content, rest_of_readme.
    cbn [concat app]. rewrite app_nil_r, app_assoc.
    now rewrite slice_to_slice.
  - symmetry. now apply slices_cover.
Qed.

Lemma C5_partition_exact_witness :
  join_empty
    [ intro_content scenario_document 2; []; [];
      features_content scenario_document 2 25; []; [];
      rest_of_readme scenario_document 60 ]
  = slice_to 25 scenario_document ++ slice_from 60 scenario_document
  /\ scenario_document =
     slice_to 25 scenario_document ++ slice 25 60 scenario_document ++
     slice_from 60 scenario_document.
Proof.
  apply (@C5_partition_exact scenario_document 2 25 60);
    try (vm_compute; reflexivity); lia.
Defined.

(** C6.  With the headings in order, the text written by a successful run
    starts with [doc[:a]] and ends with [doc[c:]]. *)
Theorem C6_intro_and_tail_kept (doc : str) (a b c : nat) (out : list str) :
  find doc features_overview_marker = Some a ->
  find doc old_compile_marker = Some b ->
  find doc skip_list_marker = Some c ->
  a <= b -> b <= c ->
  exists new_doc,
    finishes (holding doc out) Updated (Some (File new_doc true true))
    /\ is_prefix (slice_to a doc) new_doc
    /\ is_suffix (slice_from c doc) new_doc.
Proof.
  intros Ha Hb Hc _ _.
  exists (final_readme_content doc a b c). split; [now apply run_holding|].
  rewrite final_readme_content_eq. split.
  - eexists; reflexivity.
  - exists (slice_to a doc ++ new_dir_structure_section ++ nl ++
            slice a b doc ++ new_compile_section ++ nl).
    now rewrite <- !app_assoc.
Qed.

Lemma C6_intro_and_tail_kept_witness :
  exists new_doc,
    finishes (holding scenario_document []) Updated (Some (File new_doc true true))
    /\ is_prefix (slice_to 2 scenario_document) new_doc
    /\ is_suffix (slice_from 60 scenario_document) new_doc.
Proof.
  apply (@C6_intro_and_tail_kept scenario_document 2 25 60 []);
    try (vm_compute; reflexivity); lia.
Defined.

(** C7.  The lookups return [(a, b, c)] exactly when [a], [b] and [c] are
    the first-occurrence indices of the three headings in the whole text,
    each on its own; doing the lookups twice in a row leaves the world as it
    was and gives the same result both times. *)
Theorem C7_lookup_deterministic (doc : str) (w : world) :
  (forall a b c,
     find_split_points doc = Ok (a, b, c) <->
     first_occurrence features_overview_marker doc a /\
     first_occurrence old_compile_marker doc b /\
     first_occurrence skip_list_marker doc c)
  /\ (p <- lift (find_split_points doc) ;;
      q <- lift (find_split_points doc) ;;
      ret (p, q)) w
     = (w, match find_split_points doc with
           | Ok p => Ok (p, p)
           | Raise e => Raise e
           end).
Proof.
  split.
  - intros a b c. rewrite find_split_points_Ok, !find_first_occurrence.
    reflexivity.
  - unfold bind, lift, ret.
    destruct (find_split_points doc); reflexivity.
Qed.

(** C8, as amended.  When there is no README the run prints the message of
    [NotFound], does nothing else and creates no file.  When the README is
    there but may not be opened for reading, [PermissionError] is not what
    the handler catches: it leaves the run uncaught, nothing is printed and
    the file is as it was. *)
Theorem C8_absent_or_unreadable (doc : str) (wr : bool) (out : list str) :
  finishes (World None out) NotFound None
  /\ update_readme (World (Some (File doc false wr)) out) =
     (World (Some (File doc false wr)) out, Raise PermissionError).
Proof.
  split; [apply run_absent | apply run_unreadable].
Qed.

(** C8 as stated fails: on an unreadable README the run does not report
    [NotFound]. *)
Lemma C8_counterexample :
  ~ exists f,
      finishes (World (Some (File scenario_document false true)) []) NotFound f.
Proof.
  intros [f H]. unfold finishes in H. rewrite run_unreadable in H.
  discriminate H.
Qed.

(** C9.  Take a text whose features heading comes no later than its old
    compile heading and which has no old compile heading from the skip-list
    heading on.  A first run rewrites it; a second run, on what the first one
    wrote, finds no old compile heading (the new block is headed
    [## How to Compile & Run], and no seam between the joined pieces can
    complete the old heading, whatever the text), prints the message of
    [MarkerNotFound] and leaves the first run's text in place. *)
Theorem C9_second_run_fails (doc : str) (a b c : nat) (out : list str) :
  find doc features_overview_marker = Some a ->
  find doc old_compile_marker = Some b ->
  find doc skip_list_marker = Some c ->
  a <= b ->
  find (rest_of_readme doc c) old_compile_marker = None ->
  find (final_readme_content doc a b c) old_compile_marker = None
  /\ (update_readme ;;; update_readme) (holding doc out) =
     (World (Some (File (final_readme_content doc a b c) true true))
        (out ++ [message Updated; message MarkerNotFound]), Ok tt).
Proof.
  intros Ha Hb Hc Hab Htail.
  pose proof (@old_compile_marker_gone doc a b c Hb Hab Htail) as Hgone.
  split; [exact Hgone|].
  pose proof (@run_holding doc a b c out Ha Hb Hc) as H1. unfold finishes in H1.
  unfold bind. rewrite H1.
  rewrite (@run_missing_marker
             (World (Some (File (final_readme_content doc a b c) true true))
                (stdout (holding doc out) ++ [message Updated]))
             (File (final_readme_content doc a b c) true true)
             eq_refl eq_refl).
  - cbn [stdout holding]. now rewrite <- app_assoc.
  - apply find_split_points_Raise. right; left. exact Hgone.
Qed.

Lemma C9_second_run_fails_witness :
  2 <= 25 /\
  find (rest_of_readme scenario_document 60) old_compile_marker = None /\
  (update_readme ;;; update_readme) (holding scenario_document []) =
  (World (Some (File (final_readme_content scenario_document 2 25 60) true true))
     ([] ++ [message Updated; message MarkerNotFound]), Ok tt).
Proof.
  assert (Htail : find (rest_of_readme scenario_document 60) old_compile_marker = None)
    by (vm_compute; reflexivity).
  split; [lia|]. split; [exact Htail|].
  refine (proj2 (@C9_second_run_fails scenario_document 2 25 60 [] _ _ _ _ Htail));
    try (vm_compute; reflexivity); lia.
Defined.

(** C10.  When the old compile heading starts at or after the end of the
    features heading, the lookups of the run return the first-occurrence
    indices, the features span cut at them starts with the features heading,
    and a successful run writes that span, heading first, right after the
    new directory section: the heading is in the new text, at index
    [a + len(new_dir_structure_section) + 1]. *)
Theorem C10_features_heading_kept (doc : str) (a b c : nat) (out : list str) :
  find doc features_overview_marker = Some a ->
  find doc old_compile_marker = Some b ->
  find doc skip_list_marker = Some c ->
  a + length features_overview_marker <= b ->
  find_split_points doc = Ok (a, b, c)
  /\ startswith (features_content doc a b) features_overview_marker = true
  /\ exists t,
       features_content doc a b = features_overview_marker ++ t
       /\ finishes (holding doc out) Updated
            (Some (File (intro_content doc a ++ new_dir_structure_section ++ nl ++
                         (features_overview_marker ++ t) ++
                         new_compile_section ++ nl ++
                         rest_of_readme doc c) true true))
       /\ occurs_at features_overview_marker
            (intro_content doc a ++ new_dir_structure_section ++ nl ++
             (features_overview_marker ++ t) ++
             new_compile_section ++ nl ++ rest_of_readme doc c)
            (a + length new_dir_structure_section + length nl).
Proof.
  intros Ha Hb Hc Hlen.
  destruct (features_content_heading doc Ha Hlen) as [t Ht].
  split; [now apply find_split_points_Ok|].
  split; [rewrite Ht; apply startswith_app|].
  exists t. split; [exact Ht|]. split.
  - pose proof (@run_holding doc a b c out Ha Hb Hc) as H.
    rewrite final_readme_content_eq in H.
    change (slice a b doc) with (features_content doc a b) in H.
    rewrite Ht in H. exact H.
  - exists (intro_content doc a ++ new_dir_structure_section ++ nl),
           (t ++ new_compile_section ++ nl ++ rest_of_readme doc c).
    split; [now rewrite <- !app_assoc|].
    apply find_occurs_at, occurs_at_cut in Ha as (_ & _ & _ & Hle).
    rewrite !length_app. unfold intro_content, slice_to.
    rewrite length_firstn. lia.
Qed.

Lemma C10_features_heading_kept_witness :
  2 + length features_overview_marker <= 25 /\
  find_split_points scenario_document = Ok (2, 25, 60)
  /\ startswith (features_content scenario_document 2 25) features_overview_marker = true
  /\ exists t,
       features_content scenario_document 2 25 = features_overview_marker ++ t
       /\ finishes (holding scenario_document []) Updated
            (Some (File (intro_content scenario_document 2 ++
                         new_dir_structure_section ++ nl ++
                         (features_overview_marker ++ t) ++
                         new_compile_section ++ nl ++
                         rest_of_readme scenario_document 60) true true))
       /\ occurs_at features_overview_marker
            (intro_content scenario_document 2 ++
             new_dir_structure_section ++ nl ++
             (features_overview_marker ++ t) ++
             new_compile_section ++ nl ++ rest_of_readme scenario_document 60)
            (2 + length new_dir_structure_section + length nl).
Proof.
  assert (Hlen : 2 + length features_overview_marker <= 25)
    by (vm_compute; repeat constructor).
  split; [exact Hlen|].
  apply (@C10_features_heading_kept scenario_document 2 25 60 []);
    try (vm_compute; reflexivity); exact Hlen.
Defined.

(** * Further properties of the script *)

Lemma find_split_points_error (doc : str) (e : exn) :
  find_split_points doc = Raise e -> e = ValueError.
Proof.
  unfold find_split_points, index.
  destruct (find doc features_overview_marker);
    destruct (find doc old_compile_marker);
    destruct (find doc skip_list_marker); intros [= <-]; reflexivity.
Qed.

(** Every run, by what [README.md] is. *)
Lemma run_cases (w : world) :
  match readme w with
  | None => finishes w NotFound None
  | Some f =>
      if readable f then
        match find_split_points (content f) with
        | Raise _ => finishes w MarkerNotFound (Some f)
        | Ok (a, b, c) =>
            if writable f
            then finishes w Updated
                   (Some (File (final_readme_content (content f) a b c) true true))
            else finishes w WriteError (Some f)
        end
      else update_readme w = (w, Raise PermissionError)
  end.
Proof.
  destruct w as [[f|] out]; [|apply run_absent].
  cbn [readme]. destruct (readable f) eqn:Hr.
  - destruct (find_split_points (content f)) as [[[a b] c]|e] eqn:Hp.
    + pose proof (@run_found (World (Some f) out) f a b c eq_refl Hr Hp) as H.
      unfold finishes. destruct (writable f); exact H.
    + pose proof (find_split_points_error _ Hp); subst e.
      apply (@run_missing_marker (World (Some f) out) f); auto.
  - destruct f as [doc r wr]. cbn in Hr. subst r. apply run_unreadable.
Qed.

Lemma message_injective (r r' : report) : message r = message r' -> r = r'.
Proof.
  destruct r, r'; intros H; try reflexivity; vm_compute in H; discriminate H.
Qed.

Lemma finishes_unique (w : world) (r r' : report) (f f' : option file) :
  finishes w r f -> finishes w r' f' -> r = r' /\ f = f'.
Proof.
  unfold finishes. intros H H'. rewrite H in H'.
  injection H' as Hf Hm. apply app_inv_head in Hm.
  injection Hm as Hm. split; [now apply message_injective | assumption].
Qed.

Lemma clash_sound (x y p q : str) : clash x y = true -> x ++ p <> y ++ q.
Proof.
  revert y; induction x as [|c x IH]; intros [|d y] H; try discriminate.
  cbn in H. apply orb_true_iff in H as [H|H]; intros [= E1 E2].
  - subst d. now rewrite N.eqb_refl in H.
  - now apply (IH y H).
Qed.

(** An occurrence of [y] at or after an occurrence of [x] starts after the
    end of it, when the two never overlap. *)
Lemma occurs_at_clear (x y s : str) (i j : nat) :
  never_overlaps x y = true ->
  occurs_at x s i -> occurs_at y s j -> i <= j -> i + length x <= j.
Proof.
  intros Hno Hx Hy Hij.
  destruct (le_lt_dec (i + length x) j) as [|Hlt]; [assumption|exfalso].
  unfold never_overlaps in Hno. rewrite forallb_forall in Hno.
  assert (Hk : clash (skipn (j - i) x) y = true)
    by (apply Hno, in_seq; lia).
  destruct Hx as (pre & post & E & Hi).
  apply occurs_at_cut in Hy as (post' & _ & Ey & _).
  rewrite E in Ey. rewrite skipn_app, Hi in Ey.
  rewrite (skipn_all2 pre) in Ey by lia. cbn [app] in Ey.
  rewrite skipn_app in Ey.
  replace (j - i - length x) with 0 in Ey by lia. cbn [skipn] in Ey.
  now apply (clash_sound _ _ post post' Hk).
Qed.

Lemma headings_never_overlap :
  never_overlaps features_overview_marker old_compile_marker = true /\
  never_overlaps old_compile_marker skip_list_marker = true.
Proof. split; vm_compute; reflexivity. Qed.

(** A span that starts at the first occurrence of [sub] and ends after it
    starts with [sub]. *)
Lemma slice_heading (doc sub : str) (i j : nat) :
  find doc sub = Some i -> i + length sub <= j ->
  exists t, slice i j doc = sub ++ t.
Proof.
  intros Hi Hj.
  apply find_occurs_at, occurs_at_cut in Hi as (post & _ & E & _).
  unfold slice. rewrite E, firstn_app, firstn_all2 by lia. eauto.
Qed.

Lemma not_app_self (A : Type) (l : list A) (x : A) : l <> l ++ [x].
Proof.
  intros E. apply (f_equal (@length A)) in E.
  rewrite length_app in E. cbn in E. lia.
Qed.



(** X2.  The success message is never printed over an unchanged text: when
    a run prints it, the three headings were found in the text read, the
    file holds the pieces cut at the indices found and joined, and that text
    differs from the one read. *)
Theorem X2_success_means_changed (w : world) :
  stdout (fst (update_readme w)) = stdout w ++ [message Updated] ->
  exists f a b c,
    readme w = Some f
    /\ find_split_points (content f) = Ok (a, b, c)
    /\ readme (fst (update_readme w))
       = Some (File (final_readme_content (content f) a b c) true true)
    /\ final_readme_content (content f) a b c <> content f.
Proof.
  assert (Hother : forall r f,
            finishes w r f -> r <> Updated ->
            stdout (fst (update_readme w)) <> stdout w ++ [message Updated]).
  { intros r f H Hr. unfold finishes in H. rewrite H. cbn [fst stdout].
    intros E. apply app_inv_head in E.
    injection E as E. now apply (message_injective r Updated) in E. }
  intros Hout. pose proof (run_cases w) as H.
  destruct (readme w) as [f|] eqn:Hf.
  2: { exfalso. now apply (Hother NotFound None). }
  destruct (readable f) eqn:Hr.
  2: { exfalso. rewrite H in Hout. cbn [fst] in Hout.
       now apply not_app_self in Hout. }
  destruct (find_split_points (content f)) as [[[a b] c]|e] eqn:Hp.
  2: { exfalso. now apply (Hother MarkerNotFound (Some f)). }
  destruct (writable f).
  2: { exfalso. now apply (Hother WriteError (Some f)). }
  exists f, a, b, c. unfold finishes in H. rewrite H. cbn [fst readme].
  split; [reflexivity|]. split; [exact Hp|]. split; [reflexivity|].
  apply find_split_points_Ok in Hp as (Ha & _).
  now apply final_readme_content_differs.
Qed.

Lemma X2_success_means_changed_witness :
  exists f a b c,
    readme (holding scenario_document []) = Some f
    /\ find_split_points (content f) = Ok (a, b, c)
    /\ readme (fst (update_readme (holding scenario_document [])))
       = Some (File (final_readme_content (content f) a b c) true true)
    /\ final_readme_content (content f) a b c <> content f.
Proof.
  apply (@X2_success_means_changed (holding scenario_document [])).
  vm_compute; reflexivity.
Defined.

(** X3.  A run never creates [README.md] when it is absent, never removes
    it, and leaves its permissions as they were. *)
Theorem X3_file_status_kept (w : world) :
  same_file_status (readme w) (readme (fst (update_readme w))).
Proof.
  pose proof (run_cases w) as H. unfold finishes in H.
  destruct (readme w) as [f|] eqn:Hf.
  - destruct (readable f) eqn:Hr.
    + destruct (find_split_points (content f)) as [[[a b] c]|e].
      * destruct (writable f) eqn:Hw; rewrite H; cbn; auto.
      * rewrite H; cbn; auto.
    + rewrite H. cbn [fst]. rewrite Hf. cbn; auto.
  - rewrite H. exact I.
Qed.

Lemma headings_clear (doc : str) (a b c : nat) :
  find doc features_overview_marker = Some a ->
  find doc old_compile_marker = Some b ->
  find doc skip_list_marker = Some c ->
  (a <= b -> a + length features_overview_marker <= b)
  /\ (b <= c -> b + length old_compile_marker <= c).
Proof.
  intros Ha Hb Hc.
  apply find_occurs_at in Ha, Hb, Hc.
  destruct headings_never_overlap as [Hab Hbc].
  split; intros Hle; eapply occurs_at_clear; eauto.
Qed.

(** X4.  The headings cannot overlap: when the features heading is first
    found no later than the old compile heading, the whole features heading
    lies before it, and likewise for the old compile heading and the
    skip-list heading. *)
Theorem X4_headings_do_not_overlap (doc : str) (a b c : nat) :
  find doc features_overview_marker = Some a ->
  find doc old_compile_marker = Some b ->
  find doc skip_list_marker = Some c ->
  (a <= b -> a + length features_overview_marker <= b)
  /\ (b <= c -> b + length old_compile_marker <= c).
Proof.
  intros Ha Hb Hc. exact (@headings_clear doc a b c Ha Hb Hc).
Qed.

Lemma X4_headings_do_not_overlap_witness :
  (2 <= 25 -> 2 + length features_overview_marker <= 25)
  /\ (25 <= 60 -> 25 + length old_compile_marker <= 60).
Proof.
  apply (@X4_headings_do_not_overlap scenario_document 2 25 60);
    vm_compute; reflexivity.
Defined.

(** X5.  With the headings in order the text is
    [intro + features heading + F + old compile heading + D + skip-list
    heading + T], and a successful run writes
    [intro + new_dir_structure_section + "\n" + features heading + F +
    new_compile_section + "\n" + skip-list heading + T]: the old compile
    heading and its body [D] go, both new sections come in right before a
    kept heading, and nothing else moves. *)
Theorem X5_section_layout (doc : str) (a b c : nat) (out : list str) :
  find doc features_overview_marker = Some a ->
  find doc old_compile_marker = Some b ->
  find doc skip_list_marker = Some c ->
  a <= b -> b <= c ->
  exists F D T,
    doc = slice_to a doc ++ features_overview_marker ++ F ++
          old_compile_marker ++ D ++ skip_list_marker ++ T
    /\ finishes (holding doc out) Updated
         (Some (File (slice_to a doc ++ new_dir_structure_section ++ nl ++
                      features_overview_marker ++ F ++
                      new_compile_section ++ nl ++
                      skip_list_marker ++ T) true true)).
Proof.
  intros Ha Hb Hc Hab Hbc.
  destruct (@headings_clear doc a b c Ha Hb Hc) as [Hab' Hbc'].
  destruct (@slice_heading doc _ a b Ha (Hab' Hab)) as [F HF].
  destruct (@slice_heading doc _ b c Hb (Hbc' Hbc)) as [D HD].
  pose proof Hc as Hc'.
  apply find_occurs_at, occurs_at_cut in Hc' as (T & _ & HT & _).
  exists F, D, T. split.
  - rewrite <- (@slices_cover doc b c Hbc) at 1.
    rewrite <- (@slice_to_slice doc a b Hab).
    unfold slice_from. rewrite HF, HD, HT. now rewrite <- !app_assoc.
  - pose proof (@run_holding doc a b c out Ha Hb Hc) as H.
    rewrite final_readme_content_eq in H.
    unfold slice_from in H. rewrite HF, HT in H.
    now rewrite <- !app_assoc in H.
Qed.

Lemma X5_section_layout_witness :
  exists F D T,
    scenario_document =
      slice_to 2 scenario_document ++ features_overview_marker ++ F ++
      old_compile_marker ++ D ++ skip_list_marker ++ T
    /\ finishes (holding scenario_document []) Updated
         (Some (File (slice_to 2 scenario_document ++
                      new_dir_structure_section ++ nl ++
                      features_overview_marker ++ F ++
                      new_compile_section ++ nl ++
                      skip_list_marker ++ T) true true)).
Proof.
  apply (@X5_section_layout scenario_document 2 25 60 []);
    try (vm_compute; reflexivity); lia.
Defined.

(** X6.  The indices found lie inside the text, so no slice is clamped:
    with the headings in order the new text is longer than the old one by
    the two new sections and their two line breaks (2532 characters) less the
    [c - b] characters from the old compile heading up to the skip-list
    heading. *)
Theorem X6_new_length (doc : str) (a b c : nat) :
  find doc features_overview_marker = Some a ->
  find doc old_compile_marker = Some b ->
  find doc skip_list_marker = Some c ->
  a <= b -> b <= c ->
  c <= length doc
  /\ length (final_readme_content doc a b c) + (c - b) = length doc + 2532.
Proof.
  intros _ _ Hc Hab Hbc.
  apply find_occurs_at, occurs_at_cut in Hc as (_ & _ & _ & Hlen).
  split; [assumption|].
  rewrite final_readme_content_eq, !length_app.
  unfold slice_to, slice, slice_from.
  rewrite !length_firstn, !length_skipn.
  assert (H1 : length new_dir_structure_section = 791) by (vm_compute; reflexivity).
  assert (H2 : length new_compile_section = 1739) by (vm_compute; reflexivity).
  rewrite H1, H2. cbn [length nl]. lia.
Qed.

Lemma X6_new_length_witness :
  60 <= length scenario_document
  /\ length (final_readme_content scenario_document 2 25 60) + (60 - 25)
     = length scenario_document + 2532.
Proof.
  apply (@X6_new_length scenario_document 2 25 60);
    try (vm_compute; reflexivity); lia.
Defined.

(** What a run reports and leaves in the file does not depend on what is
    on the console. *)
Lemma finishes_any_console (o : option file) (out out' : list str)
      (r : report) (f : option file) :
  finishes (World o out) r f -> finishes (World o out') r f.
Proof.
  intros H.
  pose proof (run_cases (World o out)) as H1.
  pose proof (run_cases (World o out')) as H2.
  cbn [readme] in H1, H2.
  destruct o as [g|].
  - destruct (readable g).
    + destruct (find_split_points (content g)) as [[[a b] c]|e].
      * destruct (writable g);
          destruct (finishes_unique H H1) as [-> ->]; exact H2.
      * destruct (finishes_unique H H1) as [-> ->]; exact H2.
    + unfold finishes in H. rewrite H1 in H. discriminate H.
  - destruct (finishes_unique H H1) as [-> ->]; exact H2.
Qed.

(** A run that reports a missing file or a missing heading leaves the file
    as it was: both handlers return before anything is opened for
    writing. *)
Lemma early_failure_keeps_file (w : world) (r : report) (f : option file) :
  finishes w r f -> r = NotFound \/ r = MarkerNotFound -> f = readme w.
Proof.
  intros H Hr. pose proof (run_cases w) as H1.
  destruct (readme w) as [g|].
  - destruct (readable g).
    + destruct (find_split_points (content g)) as [[[a b] c]|e].
      * destruct (writable g); destruct (finishes_unique H H1) as [-> ->];
          destruct Hr; discriminate.
      * now destruct (finishes_unique H H1) as [-> ->].
    + unfold finishes in H. rewrite H1 in H. discriminate H.
  - now destruct (finishes_unique H H1) as [-> ->].
Qed.

(** X8.  A run that reports a missing file or a missing heading has not
    touched the file, so the report repeats: running again prints the same
    message again and still leaves the file as it was. *)
Theorem X8_early_failure_repeats (w : world) (r : report) (f : option file) :
  finishes w r f -> r = NotFound \/ r = MarkerNotFound ->
  f = readme w
  /\ (update_readme ;;; update_readme) w =
     (World (readme w) (stdout w ++ [message r; message r]), Ok tt).
Proof.
  intros H Hr. pose proof (early_failure_keeps_file H Hr) as ->.
  split; [reflexivity|].
  assert (H2 : finishes (World (readme w) (stdout w ++ [message r])) r (readme w)).
  { apply (@finishes_any_console (readme w) (stdout w)). now destruct w. }
  unfold finishes in H, H2. unfold bind. rewrite H, H2.
  cbn [stdout]. now rewrite <- app_assoc.
Qed.

Lemma X8_early_failure_repeats_witness :
  (update_readme ;;; update_readme) (holding document_without_compile_heading []) =
  (World (Some (File document_without_compile_heading true true))
     ([] ++ [message MarkerNotFound; message MarkerNotFound]), Ok tt).
Proof.
  refine (proj2 (@X8_early_failure_repeats
                   (holding document_without_compile_heading [])
                   MarkerNotFound
                   (Some (File document_without_compile_heading true true)) _ _));
    [vm_compute; reflexivity | right; reflexivity].
Defined.


(** X10.  After a first run on a text whose features heading comes no
    later than its old compile heading, the old compile heading is in the new
    text exactly when it is in the kept tail.  When it is, a second run is
    not rejected: it finds all three headings again and rewrites the text a
    second time. *)
Theorem X10_second_run_decided_by_tail (doc : str) (a b c : nat) (out : list str) :
  find doc features_overview_marker = Some a ->
  find doc old_compile_marker = Some b ->
  find doc skip_list_marker = Some c ->
  a <= b ->
  (find (final_readme_content doc a b c) old_compile_marker = None
   <-> find (rest_of_readme doc c) old_compile_marker = None)
  /\ (find (rest_of_readme doc c) old_compile_marker <> None ->
      exists a' b' c',
        (update_readme ;;; update_readme) (holding doc out) =
        (World (Some (File (final_readme_content
                              (final_readme_content doc a b c) a' b' c')
                        true true))
           (out ++ [message Updated; message Updated]), Ok tt)).
Proof.
  intros Ha Hb Hc Hab.
  assert (Htail : forall sub, occurs sub (rest_of_readme doc c) ->
                              occurs sub (final_readme_content doc a b c)).
  { intros sub (p & q & E). rewrite final_readme_content_eq.
    unfold rest_of_readme in E. rewrite E.
    exists (slice_to a doc ++ new_dir_structure_section ++ nl ++
            slice a b doc ++ new_compile_section ++ nl ++ p), q.
    now rewrite <- !app_assoc. }
  split.
  - split.
    + intros H. apply find_None_iff. intros Ho.
      apply find_None_iff in H. now apply H, Htail.
    + now apply old_compile_marker_gone.
  - intros Hin.
    assert (HB : occurs old_compile_marker (final_readme_content doc a b c)).
    { apply Htail, contains_true_iff. unfold contains.
      destruct (find (rest_of_readme doc c) old_compile_marker); congruence. }
    assert (HC : occurs skip_list_marker (final_readme_content doc a b c)).
    { apply Htail. pose proof Hc as Hc'.
      apply find_occurs_at, occurs_at_cut in Hc' as (T & _ & HT & _).
      exists [], T. exact HT. }
    assert (HA : occurs features_overview_marker (final_readme_content doc a b c)).
    { destruct (@headings_clear doc a b c Ha Hb Hc) as [Hab' _].
      destruct (@slice_heading doc _ a b Ha (Hab' Hab)) as [F HF].
      rewrite final_readme_content_eq, HF.
      exists (slice_to a doc ++ new_dir_structure_section ++ nl),
             (F ++ new_compile_section ++ nl ++ slice_from c doc).
      now rewrite <- !app_assoc. }
    apply contains_true_iff in HA, HB, HC. unfold contains in HA, HB, HC.
    destruct (find (final_readme_content doc a b c) features_overview_marker)
      as [a'|] eqn:Ha'; [|discriminate].
    destruct (find (final_readme_content doc a b c) old_compile_marker)
      as [b'|] eqn:Hb'; [|discriminate].
    destruct (find (final_readme_content doc a b c) skip_list_marker)
      as [c'|] eqn:Hc'; [|discriminate].
    exists a', b', c'.
    pose proof (@run_holding doc a b c out Ha Hb Hc) as H1.
    pose proof (@run_holding (final_readme_content doc a b c) a' b' c'
                  (out ++ [message Updated]) Ha' Hb' Hc') as H2.
    unfold finishes, holding in H1, H2. unfold bind, holding.
    rewrite H1. cbn [stdout] in H2 |- *. rewrite H2.
    now rewrite <- app_assoc.
Qed.

Lemma X10_second_run_decided_by_tail_witness :
  0 <= 21 /\
  find (rest_of_readme document_with_second_compile_heading 54) old_compile_marker
    <> None /\
  exists a' b' c',
    (update_readme ;;; update_readme)
      (holding document_with_second_compile_heading []) =
    (World (Some (File (final_readme_content
                          (final_readme_content
                             document_with_second_compile_heading 0 21 54)
                          a' b' c')
                    true true))
       ([] ++ [message Updated; message Updated]), Ok tt).
Proof.
  assert (Htail : find (rest_of_readme document_with_second_compile_heading 54)
                    old_compile_marker <> None)
    by (vm_compute; discriminate).
  split; [lia|]. split; [exact Htail|].
  refine (proj2 (@X10_second_run_decided_by_tail
                   document_with_second_compile_heading 0 21 54 [] _ _ _ _) Htail);
    try (vm_compute; reflexivity); lia.
Defined.

(** [s[a:c] + s[c:b] = s[a:b]] when [a <= c <= b]. *)
Lemma slice_slice (s : str) (a c b : nat) :
  a <= c -> c <= b -> slice a c s ++ slice c b s = slice a b s.
Proof.
  intros Hac Hcb.
  apply (app_inv_head (slice_to a s)).
  rewrite app_assoc, !slice_to_slice by lia. reflexivity.
Qed.

(** [s[c:b] + s[b:] = s[c:]] when [c <= b]. *)
Lemma slice_slice_from (s : str) (c b : nat) :
  c <= b -> slice c b s ++ slice_from b s = slice_from c s.
Proof.
  intros Hcb.
  apply (app_inv_head (slice_to c s)).
  rewrite (slices_cover s Hcb). unfold slice_to, slice_from.
  symmetry. apply firstn_skipn.
Qed.

Lemma headings_clear_reversed (doc : str) (a b c : nat) :
  find doc features_overview_marker = Some a ->
  find doc old_compile_marker = Some b ->
  find doc skip_list_marker = Some c ->
  (b <= a -> b + length old_compile_marker <= a)
  /\ (c <= b -> c + length skip_list_marker <= b).
Proof.
  intros Ha Hb Hc.
  apply find_occurs_at in Ha, Hb, Hc.
  assert (never_overlaps old_compile_marker features_overview_marker = true)
    by (vm_compute; reflexivity).
  assert (never_overlaps skip_list_marker old_compile_marker = true)
    by (vm_compute; reflexivity).
  split; intros Hle; eapply occurs_at_clear; eauto.
Qed.

(** X11.  When the old compile heading is first found before the features
    heading, the run still reports success, but the features span is empty:
    the new text is [doc[:a]], the two new sections and [doc[c:]], and the
    old compile heading, kept inside [doc[:a]], is still in it. *)
Theorem X11_compile_heading_first (doc : str) (a b c : nat) (out : list str) :
  find doc features_overview_marker = Some a ->
  find doc old_compile_marker = Some b ->
  find doc skip_list_marker = Some c ->
  b < a ->
  exists t,
    slice_to a doc = slice_to b doc ++ old_compile_marker ++ t
    /\ finishes (holding doc out) Updated
         (Some (File (slice_to b doc ++ old_compile_marker ++ t ++
                      new_dir_structure_section ++ nl ++
                      new_compile_section ++ nl ++
                      slice_from c doc) true true)).
Proof.
  intros Ha Hb Hc Hba.
  destruct (@headings_clear_reversed doc a b c Ha Hb Hc) as [Hclear _].
  assert (Hle : b <= a) by lia.
  destruct (@slice_heading doc _ b a Hb (Hclear Hle)) as [t Ht].
  exists t.
  assert (Hintro : slice_to a doc = slice_to b doc ++ old_compile_marker ++ t)
    by (rewrite <- Ht; symmetry; now apply slice_to_slice).
  split; [exact Hintro|].
  pose proof (@run_holding doc a b c out Ha Hb Hc) as H.
  rewrite final_readme_content_eq in H.
  assert (Hempty : slice a b doc = [])
    by (unfold slice; replace (b - a) with 0 by lia; reflexivity).
  rewrite Hempty, Hintro in H. cbn [app] in H.
  now rewrite <- !app_assoc in H.
Qed.

Lemma X11_compile_heading_first_witness :
  0 < 33 /\
  exists t,
    slice_to 33 document_with_compile_heading_first =
      slice_to 0 document_with_compile_heading_first ++ old_compile_marker ++ t
    /\ finishes (holding document_with_compile_heading_first []) Updated
         (Some (File (slice_to 0 document_with_compile_heading_first ++
                      old_compile_marker ++ t ++
                      new_dir_structure_section ++ nl ++
                      new_compile_section ++ nl ++
                      slice_from 54 document_with_compile_heading_first)
                  true true)).
Proof.
  split; [lia|].
  apply (@X11_compile_heading_first document_with_compile_heading_first 33 0 54 []);
    try (vm_compute; reflexivity); lia.
Defined.

(** X12.  When the skip-list heading is first found between the features
    heading and the old compile heading, the run reports success and removes
    nothing: the span from the skip-list heading up to the old compile
    heading is written twice, once at the end of the features span and once
    at the start of the tail, and the tail still has the old compile
    heading. *)
Theorem X12_skip_list_heading_first (doc : str) (a b c : nat) (out : list str) :
  find doc features_overview_marker = Some a ->
  find doc old_compile_marker = Some b ->
  find doc skip_list_marker = Some c ->
  a <= c -> c < b ->
  exists t u,
    slice c b doc = skip_list_marker ++ t
    /\ slice_from b doc = old_compile_marker ++ u
    /\ finishes (holding doc out) Updated
         (Some (File (slice_to a doc ++ new_dir_structure_section ++ nl ++
                      slice a c doc ++ slice c b doc ++
                      new_compile_section ++ nl ++
                      slice c b doc ++ slice_from b doc) true true)).
Proof.
  intros Ha Hb Hc Hac Hcb.
  destruct (@headings_clear_reversed doc a b c Ha Hb Hc) as [_ Hclear].
  assert (Hle : c <= b) by lia.
  destruct (@slice_heading doc _ c b Hc (Hclear Hle)) as [t Ht].
  pose proof Hb as Hb'.
  apply find_occurs_at, occurs_at_cut in Hb' as (u & _ & Hu & _).
  exists t, u. split; [exact Ht|]. split; [exact Hu|].
  pose proof (@run_holding doc a b c out Ha Hb Hc) as H.
  rewrite final_readme_content_eq in H.
  rewrite <- (@slice_slice doc a c b Hac Hle) in H.
  rewrite <- (@slice_slice_from doc c b Hle) in H.
  now rewrite <- !app_assoc in H.
Qed.

Lemma X12_skip_list_heading_first_witness :
  0 <= 21 /\ 21 < 49 /\
  exists t u,
    slice 21 49 scrambled_document = skip_list_marker ++ t
    /\ slice_from 49 scrambled_document = old_compile_marker ++ u
    /\ finishes (holding scrambled_document []) Updated
         (Some (File (slice_to 0 scrambled_document ++
                      new_dir_structure_section ++ nl ++
                      slice 0 21 scrambled_document ++
                      slice 21 49 scrambled_document ++
                      new_compile_section ++ nl ++
                      slice 21 49 scrambled_document ++
                      slice_from 49 scrambled_document) true true)).
Proof.
  split; [lia|]. split; [lia|].
  apply (@X12_skip_list_heading_first scrambled_document 0 49 21 []);
    try (vm_compute; reflexivity); lia.
Defined.
